(** * fasshim: avatar URLs and memoised directory lookups

    A shallow embedding of [fedmsg_meta_fedora_infrastructure/fasshim.py].

    A Python [str] is represented by the [string] of its UTF-8 bytes: the
    hash functions and the URL quoting of the source work on exactly those
    bytes, and the separators the source looks for (the at-sign, the
    literal domain suffix) are ASCII, so searching the bytes and searching
    the code points agree. *)

From Stdlib Require Import Ascii String.
From stdpp Require Import gmap strings list pretty.

Local Open Scope string_scope.

(** ** Python string primitives used by the source *)

(** [s.endswith(suffix)]: some tail of [s] is [suffix]. *)
Fixpoint endswith (s suffix : string) : bool :=
  if String.eqb s suffix then true
  else match s with
       | EmptyString => false
       | String _ s' => endswith s' suffix
       end.

(** [c in s] for a one-character [c]. *)
Fixpoint contains (c : ascii) (s : string) : bool :=
  match s with
  | EmptyString => false
  | String a s' => Ascii.eqb a c || contains c s'
  end.

(** [s.rsplit(c, 1)[0]]: what stands before the last [c]; the whole of [s]
    when [c] does not occur. *)
Fixpoint rsplit1_head (c : ascii) (s : string) : string :=
  match s with
  | EmptyString => EmptyString
  | String a s' =>
      if Ascii.eqb a c && negb (contains c s') then EmptyString
      else String a (rsplit1_head c s')
  end.

(** [sep.join(l)]. *)
Fixpoint join (sep : string) (l : list string) : string :=
  match l with
  | [] => ""
  | [x] => x
  | x :: l' => x +:+ sep +:+ join sep l'
  end.

(** [template.format(size=...)] for templates whose only braces are
    [{size}] replacement fields, as in [hardcoded_avatars]; the second
    argument is the text [str] gives for the size. *)
Fixpoint format_size (template size : string) : string :=
  match template with
  | String "{" (String "s" (String "i" (String "z" (String "e"
      (String "}" rest))))) => size +:+ format_size rest size
  | String a rest => String a (format_size rest size)
  | EmptyString => EmptyString
  end.

(** ** [urllib.parse.urlencode] on an ordered mapping *)

Definition hex_digit (n : N) : ascii :=
  match n with
  | 0 => "0" | 1 => "1" | 2 => "2" | 3 => "3" | 4 => "4" | 5 => "5"
  | 6 => "6" | 7 => "7" | 8 => "8" | 9 => "9" | 10 => "A" | 11 => "B"
  | 12 => "C" | 13 => "D" | 14 => "E" | _ => "F"
  end%N%char.

(** The characters [quote] never escapes: letters, digits and [_.-~]. *)
Definition always_safe (a : ascii) : bool :=
  let n := N_of_ascii a in
  ((65 <=? n) && (n <=? 90) || (97 <=? n) && (n <=? 122)
   || (48 <=? n) && (n <=? 57)
   || (n =? 95) || (n =? 46) || (n =? 45) || (n =? 126))%N.

(** [quote_plus]: safe bytes stay, a space becomes a plus sign, every other
    byte becomes a percent sign and two upper-case hexadecimal digits. *)
Fixpoint quote_plus (s : string) : string :=
  match s with
  | EmptyString => EmptyString
  | String a s' =>
      if always_safe a then String a (quote_plus s')
      else if Ascii.eqb a " " then String "+" (quote_plus s')
      else let n := N_of_ascii a in
           String "%" (String (hex_digit (n / 16)) (String (hex_digit (n mod 16))
             (quote_plus s')))
  end.

(** [urlencode(query)]: the items in the mapping's order, each rendered
    [key=value] with both sides quoted, joined by ampersands. *)
Definition urlencode (query : list (string * string)) : string :=
  join "&" (map (λ kv, quote_plus kv.1 +:+ "=" +:+ quote_plus kv.2) query).

(** [collections.OrderedDict(params)]: a key met again keeps its first
    position and takes the later value. *)
Fixpoint ordered_set (k v : string) (d : list (string * string))
  : list (string * string) :=
  match d with
  | [] => [(k, v)]
  | (k', v') :: d' =>
      if String.eqb k' k then (k', v) :: d' else (k', v') :: ordered_set k v d'
  end.

Definition _ordered_query_params (params : list (string * string))
  : list (string * string) :=
  fold_left (λ d kv, ordered_set kv.1 kv.2 d) params [].

(** ** AvatarResolver *)

(** The static override table, as the source lists it. *)
Definition hardcoded_avatars : gmap string string :=
  list_to_map
    [ ("bodhi", "https://apps.fedoraproject.org/img/icons/bodhi-{size}.png");
      ("koschei", "https://apps.fedoraproject.org/img/icons/koschei-{size}.png");
      ("taskotron", "https://apps.fedoraproject.org/img/icons/taskotron-{size}.png") ].

(** What the federated resolver is asked for. *)
Inductive libravatar_query :=
  | by_openid (openid : string)
  | by_email (email : string).

Section Avatars.
(** [hashlib] and the [libravatar] package are collaborators: the hex
    digest of a byte string, and the federated lookup. *)
Variable sha256_hexdigest : string → string.
Variable md5_hexdigest : string → string.
Variable libravatar_url : libravatar_query → Z → string → string.

Definition avatar_url_from_openid
    (openid : string) (size : Z) (default : string) (dns : bool) : string :=
  if dns then libravatar_url (by_openid openid) size default
  else
    let params := _ordered_query_params [("s", pretty size); ("d", default)] in
    let query := urlencode params in
    let hash := sha256_hexdigest openid in
    "https://seccdn.libravatar.org/avatar/" +:+ hash +:+ "?" +:+ query.

Definition avatar_url_from_email
    (email : string) (size : Z) (default : string) (dns : bool) : string :=
  if dns then libravatar_url (by_email email) size default
  else
    let params := _ordered_query_params [("s", pretty size); ("d", default)] in
    let query := urlencode params in
    let hash := md5_hexdigest email in
    "https://seccdn.libravatar.org/avatar/" +:+ hash +:+ "?" +:+ query.

Definition avatar_url (username : string) (size : Z) (default : string) : string :=
  match hardcoded_avatars !! username with
  | Some template => format_size template (pretty size)
  | None =>
      let openid := "http://" +:+ username +:+ ".id.fedoraproject.org/" in
      avatar_url_from_openid openid size default false
  end.
End Avatars.

(** ** DirectoryLookup: data *)

(** The credential dictionary of the docstring: [username] and [password]
    are required keys, [base_url] is optional. *)
Record fas_credentials := {
  base_url : option string;
  fas_username : string;
  fas_password : string;
}.

(** The value bound to the parameter [fas_credentials]: [None] (the
    default) or a dictionary. *)
Inductive py_credentials :=
  | PyNone
  | PyDict (d : fas_credentials).

(** One entry of [response['people']]. *)
Record person := {
  person_username : string;
  person_email : option string;
  person_ircnick : option string;
}.

(** The reply to [/user/list]. The fields the source reads by subscript
    ([people], [username]) are required; the fields it reads with [.get]
    ([email], [ircnick]) may be missing. *)
Record fas_response := {
  people : list person;
  username : string;
  email : option string;
  ircnick : option string;
}.

(** What [_search_fas] sends: the client it builds (base URL, user,
    password) and the request parameters; the path [/user/list] and
    [auth=True] are constant. *)
Record fas_request := {
  req_base_url : string;
  req_username : string;
  req_password : string;
  req_search : string;
  req_by_email : bool;
}.

(** The directory client answers or raises. *)
Inductive reply :=
  | Response (r : fas_response)
  | Failure (e : string).

(** The two [ValueError]s the module raises itself. *)
Inductive value_error :=
  | no_fas_account
  | multiple_users.

Inductive exn :=
  | ValueError (why : value_error)
  | AttributeError
  | IndexError
  | ClientError (e : string).

Inductive result (A : Type) :=
  | Ok (a : A)
  | Raise (e : exn).
Arguments Ok {A} a.
Arguments Raise {A} e.

(** The effects a call can have: reads and writes of [fas_region], and
    requests to the directory. *)
Inductive event :=
  | CacheGet (key : string)
  | CacheSet (key value : string)
  | Request (q : fas_request).

(** The process-wide state: the memory backend of [fas_region] (a
    dictionary that never evicts) and the log of effects so far. *)
Record world := {
  fas_region : gmap string string;
  trace : list event;
}.

(** How many directory searches a log holds. *)
Fixpoint remote_calls (t : list event) : nat :=
  match t with
  | [] => 0
  | Request _ :: t' => S (remote_calls t')
  | _ :: t' => remote_calls t'
  end.

Definition log (e : event) (w : world) : world :=
  {| fas_region := fas_region w; trace := trace w ++ [e] |}.

(** ** A state and exception monad over [world] *)

Definition M (A : Type) : Type := world → result A * world.

Definition ret {A} (a : A) : M A := λ w, (Ok a, w).
Definition raise {A} (e : exn) : M A := λ w, (Raise e, w).
Definition bind {A B} (m : M A) (k : A → M B) : M B :=
  λ w, match m w with
       | (Ok a, w') => k a w'
       | (Raise e, w') => (Raise e, w')
       end.

Notation "'let*' x ':=' m 'in' k" := (bind m (λ x, k))
  (at level 10, x name, m at level 100, k at level 200).
Notation "m ;;; k" := (bind m (λ _, k))
  (at level 100, right associativity).

(** [for x in l: body]. *)
Fixpoint for_each {A} (l : list A) (body : A → M unit) : M unit :=
  match l with
  | [] => ret tt
  | x :: l' => body x ;;; for_each l' body
  end.

(** [if v: body] for an optional string: [None] and the empty string are
    false. *)
Definition if_truthy (v : option string) (body : string → M unit) : M unit :=
  match v with
  | Some (String a s) => body (String a s)
  | _ => ret tt
  end.

(** [fas_region.get(key)] and [fas_region.set(key, value)]. *)
Definition region_get (key : string) : M (option string) :=
  λ w, (Ok (fas_region w !! key), log (CacheGet key) w).

Definition region_set (key value : string) : M unit :=
  λ w, (Ok tt, {| fas_region := <[key := value]> (fas_region w);
                  trace := trace w ++ [CacheSet key value] |}).

(** ** dogpile's default key generator *)

Definition module_name : string := "fedmsg_meta_fedora_infrastructure.fasshim".

(** [function_key_generator(None, fn)]: the key of a call is the
    function's qualified name, a bar, and the positional arguments
    rendered by [str] and joined by spaces. The arguments are given here
    already rendered. *)
Definition function_key_generator (fn_name : string) (args : list string) : string :=
  (module_name +:+ ":" +:+ fn_name) +:+ "|" +:+ join " " args.

(** The client and the request parameters [_search_fas] builds from its
    arguments: [fas_credentials.get('base_url', ...)], the two required
    keys, [{'search': search_string}] and [by_email]. *)
Definition fas_query (search_string : string) (creds : fas_credentials) (by_email : bool)
  : fas_request :=
  let url := default "https://admin.fedoraproject.org/accounts/" (base_url creds) in
  {| req_base_url := url;
     req_username := fas_username creds;
     req_password := fas_password creds;
     req_search := search_string;
     req_by_email := by_email |}.

Section DirectoryLookup.
(** [str] of a credential dictionary: Python's rendering, which depends
    on the order the dictionary was filled in, is not fixed here. *)
Variable dict_str : fas_credentials → string.

(** The directory: its answer may depend on the request and on how many
    requests were sent before. *)
Variable send_request : nat → fas_request → reply.

Definition py_str (c : py_credentials) : string :=
  match c with
  | PyNone => "None"
  | PyDict d => dict_str d
  end.

(** [fasclient.send_request('/user/list', req_params=..., auth=True)]. *)
Definition fasclient_send_request (q : fas_request) : M fas_response :=
  λ w, match send_request (remote_calls (trace w)) q with
       | Response r => (Ok r, log (Request q) w)
       | Failure e => (Raise (ClientError e), log (Request q) w)
       end.

Definition _search_fas
    (search_string : string) (fas_credentials : py_credentials) (by_email : bool)
  : M (list person) :=
  let* creds := match fas_credentials with
                | PyNone => raise AttributeError
                | PyDict d => ret d
                end in
  let* response := fasclient_send_request (fas_query search_string creds by_email) in
  match people response with
  | [] => raise (ValueError no_fas_account)
  | _ :: _ =>
      let email_key_func := function_key_generator "email2fas" in
      let nick_key_func := function_key_generator "nick2fas" in
      for_each (people response) (λ person,
        let fasname := username response in
        let email := email response in
        let ircnick := ircnick response in
        if_truthy email (λ email, region_set (email_key_func [email]) fasname) ;;;
        if_truthy ircnick (λ ircnick, region_set (nick_key_func [ircnick]) fasname)) ;;;
      ret (people response)
  end.

(** [@fas_region.cache_on_arguments()]: the key is made from the
    positional arguments the key generator receives; a stored value is
    returned without running the function; otherwise the function runs and,
    when it returns, its value is stored under the key; an exception of the
    function passes through and nothing is stored. [rest] is what the
    generator receives after the first argument. [Some c]: a second
    argument reached it, either passed by the caller ([email2fas(e, c)]) or,
    from dogpile 0.7 on, the default [None] that the decorator fills in for
    a call that leaves the argument out, so that [email2fas(e)] is
    [email2fas e (Some PyNone)] there. [None]: the generator received the
    first argument alone, which is the call [email2fas(e)] under dogpile
    before 0.7. Calls are positional: the default key generator refuses
    keyword arguments before the cache is consulted. *)
Definition cache_on_arguments
    (fn_name : string) (fn : string → py_credentials → M string)
    (arg : string) (rest : option py_credentials) : M string :=
  let key := function_key_generator fn_name
               (arg :: match rest with Some c => [py_str c] | None => [] end) in
  let* cached := region_get key in
  match cached with
  | Some value => ret value
  | None =>
      let* value := fn arg (default PyNone rest) in
      region_set key value ;;;
      ret value
  end.

(** The body of [nick2fas], before decoration. *)
Definition nick2fas_fn (nickname : string) (fas_credentials : py_credentials) : M string :=
  let* people := _search_fas nickname fas_credentials false in
  if (1 <? length people)%nat then raise (ValueError multiple_users)
  else match people with
       | p :: _ => ret (person_username p)
       | [] => raise IndexError
       end.

Definition nick2fas : string → option py_credentials → M string :=
  cache_on_arguments "nick2fas" nick2fas_fn.

(** The body of [email2fas], before decoration. *)
Definition email2fas_fn (email : string) (fas_credentials : py_credentials) : M string :=
  if endswith email "@fedoraproject.org" then ret (rsplit1_head "@" email)
  else
    let* people := _search_fas email fas_credentials true in
    if (1 <? length people)%nat then raise (ValueError multiple_users)
    else match people with
         | p :: _ => ret (person_username p)
         | [] => raise IndexError
         end.

Definition email2fas : string → option py_credentials → M string :=
  cache_on_arguments "email2fas" email2fas_fn.

(** [n] calls one after the other, each result (a value or the exception
    the caller sees) kept. *)
Fixpoint repeat_call {A} (n : nat) (call : M A) (w : world) : list (result A) * world :=
  match n with
  | O => ([], w)
  | S n' => let '(r, w') := call w in
            let '(rs, w'') := repeat_call n' call w' in
            (r :: rs, w'')
  end.
End DirectoryLookup.

(** ** Sample collaborators and inputs for the closed examples *)

(** A rendering of the credential dictionary in the order [username],
    [password], as Python gives it for plain values. *)
Definition sample_dict_str (d : fas_credentials) : string :=
  "{'username': '" +:+ fas_username d +:+ "', 'password': '" +:+ fas_password d +:+ "'}".

Definition sample_creds : fas_credentials :=
  {| base_url := None; fas_username := "shim"; fas_password := "secret" |}.

Definition bob : person :=
  {| person_username := "bob";
     person_email := Some "bob@example.com";
     person_ircnick := Some "bobby" |}.

Definition bob2 : person :=
  {| person_username := "bob2";
     person_email := Some "bob2@example.com";
     person_ircnick := Some "bobby" |}.

(** A directory that always answers with the same response. *)
Definition always (r : fas_response) : nat → fas_request → reply :=
  λ _ _, Response r.

(** One match, and the top-level fields say the same as the person. *)
Definition one_bob : fas_response :=
  {| people := [bob]; username := "bob";
     email := Some "bob@example.com"; ircnick := Some "bobby" |}.

(** Two matches. *)
Definition two_bobs : fas_response :=
  {| people := [bob; bob2]; username := "bob";
     email := Some "bob@example.com"; ircnick := Some "bobby" |}.


(** No match. *)
Definition nobody : fas_response :=
  {| people := []; username := ""; email := None; ircnick := None |}.

Definition empty_world : world := {| fas_region := ∅; trace := [] |}.


(** ** Vocabulary of the statements *)

(** A string [quote_plus] leaves as it is. *)
Definition all_safe (s : string) : Prop := quote_plus s = s.

(** An optional string that passes [if v:], if it does. *)
Definition truthy (v : option string) : option string :=
  match v with
  | Some (String a s) => Some (String a s)
  | _ => None
  end.

(** The cache keys one search warms, computed from the two top-level
    fields of the response and from nothing else. *)
Definition warmed_keys (email ircnick : option string) : list string :=
  match truthy email with
  | Some e => [function_key_generator "email2fas" [e]]
  | None => []
  end ++
  match truthy ircnick with
  | Some n => [function_key_generator "nick2fas" [n]]
  | None => []
  end.

(** Storing one value under each of the keys, in turn. *)
Definition warm (keys : list string) (value : string) (m : gmap string string)
  : gmap string string :=
  fold_left (λ m k, <[k := value]> m) keys m.

(** The writes of one pass of the warming loop. *)
Definition warm_events (r : fas_response) : list event :=
  map (λ k, CacheSet k (username r)) (warmed_keys (email r) (ircnick r)).

(** The world after a search that found somebody: the request is logged,
    and the loop has run once per person. *)
Definition after_search (q : fas_request) (r : fas_response) (w : world) : world :=
  {| fas_region := warm (warmed_keys (email r) (ircnick r)) (username r) (fas_region w);
     trace := trace w ++ Request q
                :: mjoin (replicate (length (people r)) (warm_events r)) |}.

(** The validation both resolvers run on the people a search returns. *)
Definition single_match (found : result (list person) * world) : result string * world :=
  match found with
  | (Ok people, w') =>
      if (1 <? length people)%nat then (Raise (ValueError multiple_users), w')
      else match people with
           | p :: _ => (Ok (person_username p), w')
           | [] => (Raise IndexError, w')
           end
  | (Raise e, w') => (Raise e, w')
  end.

(** The key [cache_on_arguments] computes for a call. *)
Definition call_key (dict_str : fas_credentials → string)
    (fn_name arg : string) (rest : option py_credentials) : string :=
  function_key_generator fn_name
    (arg :: match rest with Some c => [py_str dict_str c] | None => [] end).

(** The two public resolvers, to state what they share once. *)
Inductive resolver :=
  | Nick2fas
  | Email2fas.

Definition resolver_name (f : resolver) : string :=
  match f with Nick2fas => "nick2fas" | Email2fas => "email2fas" end.

(** The [by_email] flag the resolver passes to [_search_fas]. *)
Definition by_email_of (f : resolver) : bool :=
  match f with Nick2fas => false | Email2fas => true end.

(** Whether the resolver's body goes to the directory for this argument:
    always for a nickname, and for an email unless it is of the
    fedoraproject domain. *)
Definition searches (f : resolver) (arg : string) : bool :=
  match f with
  | Nick2fas => true
  | Email2fas => negb (endswith arg "@fedoraproject.org")
  end.

Definition resolve (dict_str : fas_credentials → string)
    (send_request : nat → fas_request → reply) (f : resolver)
  : string → option py_credentials → M string :=
  match f with
  | Nick2fas => nick2fas dict_str send_request
  | Email2fas => email2fas dict_str send_request
  end.

(** A call of the public interface, and the world after a series of them
    (whatever each returned or raised). *)
Definition api_call : Type := resolver * string * option py_credentials.

Fixpoint run_calls (dict_str : fas_credentials → string)
    (send_request : nat → fas_request → reply) (calls : list api_call) (w : world)
  : world :=
  match calls with
  | [] => w
  | (f, arg, rest) :: calls' =>
      run_calls dict_str send_request calls'
        (resolve dict_str send_request f arg rest w).2
  end.


(** [all(p(c) for c in s)]. *)
Fixpoint string_forallb (p : ascii → bool) (s : string) : bool :=
  match s with
  | EmptyString => true
  | String a s' => p a && string_forallb p s'
  end.

(** The characters a quoted query value can hold: the safe ones, the
    percent sign of an escape and the plus sign of a space. *)
Definition query_char (a : ascii) : bool :=
  always_safe a || Ascii.eqb a "%" || Ascii.eqb a "+".

(** The exception a reply makes [_search_fas] raise, if it does. *)
Definition search_error (rep : reply) : option exn :=
  match rep with
  | Failure e => Some (ClientError e)
  | Response r =>
      match people r with
      | [] => Some (ValueError no_fas_account)
      | _ :: _ => None
      end
  end.

(** A directory that is down. *)
Definition down : nat → fas_request → reply := λ _ _, Failure "503".

(** A match whose top-level user name is not the person's. *)
Definition alias_of_bob : fas_response :=
  {| people := [bob]; username := "robert";
     email := Some "bob@example.com"; ircnick := Some "bobby" |}.

(** The world after [fas_region.set(key, value)]. *)
Definition stored (key value : string) (w : world) : world :=
  {| fas_region := <[key := value]> (fas_region w);
     trace := trace w ++ [CacheSet key value] |}.

(** * Properties *)

(** ** Strings *)

Lemma string_app_cons a (s t : string) : String a s +:+ t = String a (s +:+ t).
Proof. reflexivity. Qed.

Lemma endswith_refl s : endswith s s = true.
Proof. destruct s; simpl; by rewrite ?Ascii.eqb_refl, ?String.eqb_refl. Qed.

Lemma endswith_app p suffix : endswith (p +:+ suffix) suffix = true.
Proof.
  induction p as [|a p IH]; [apply endswith_refl |].
  rewrite string_app_cons. cbn [endswith].
  destruct (String.eqb (String a (p +:+ suffix)) suffix); [done | exact IH].
Qed.

Lemma endswith_inv s suffix :
  endswith s suffix = true → ∃ p, s = p +:+ suffix.
Proof.
  induction s as [|a s IH]; cbn [endswith].
  - destruct (String.eqb_spec "" suffix) as [<-|]; [by exists "" | done].
  - destruct (String.eqb_spec (String a s) suffix) as [<-|]; [by exists "" |].
    intros [p ->]%IH. by exists (String a p).
Qed.

Lemma contains_app_r c p s : contains c s = true → contains c (p +:+ s) = true.
Proof.
  intros Hs. induction p as [|a p IH]; [done |].
  rewrite string_app_cons. cbn [contains]. rewrite IH. apply orb_true_r.
Qed.

(** The local part of an address of the fedoraproject domain is what the
    source's [rsplit] keeps. *)
Lemma rsplit1_head_fedoraproject l :
  rsplit1_head "@" (l +:+ "@fedoraproject.org") = l.
Proof.
  induction l as [|a l IH]; [done |].
  rewrite string_app_cons. cbn [rsplit1_head].
  rewrite (contains_app_r "@" l "@fedoraproject.org") by done.
  rewrite andb_false_r. by rewrite IH.
Qed.

Lemma string_app_length (s t : string) :
  String.length (s +:+ t) = String.length s + String.length t.
Proof. induction s; [done |]. rewrite string_app_cons. simpl. congruence. Qed.

(** ** URL quoting of a rendered integer *)

Lemma all_safe_cons a s : always_safe a = true → all_safe s → all_safe (String a s).
Proof. unfold all_safe. simpl. by intros -> ->. Qed.

Lemma pretty_N_char_safe x : always_safe (pretty_N_char x) = true.
Proof. unfold pretty_N_char. by repeat case_match. Qed.

Lemma pretty_N_go_safe x : ∀ s, all_safe s → all_safe (pretty_N_go x s).
Proof.
  induction (N.lt_wf_0 x) as [x _ IH]. intros s Hs.
  destruct (decide (0 < x)%N) as [Hx|Hx].
  - rewrite pretty_N_go_step by done.
    apply IH; [by apply N.div_lt |].
    apply all_safe_cons; [apply pretty_N_char_safe | done].
  - assert (x = 0%N) as -> by lia. by rewrite pretty_N_go_0.
Qed.

Lemma pretty_N_safe (x : N) : all_safe (pretty x).
Proof.
  unfold pretty, pretty_N. case_decide; [done |].
  by apply pretty_N_go_safe.
Qed.

(** [str] of an integer has only digits and a minus sign, which
    [quote_plus] leaves alone. *)
Lemma quote_plus_pretty_Z (z : Z) : quote_plus (pretty z) = pretty z.
Proof.
  destruct z as [|p|p]; [done | apply (pretty_N_safe (Npos p)) |].
  change (pretty (Z.neg p)) with ("-" +:+ pretty (Npos p)).
  apply (all_safe_cons "-"); [done | apply pretty_N_safe].
Qed.

(** The query string of both hash paths: [s] first, then [d]. *)
Lemma ordered_query (size : Z) (default : string) :
  urlencode (_ordered_query_params [("s", pretty size); ("d", default)])
  = "s=" +:+ pretty size +:+ "&d=" +:+ quote_plus default.
Proof.
  unfold urlencode, _ordered_query_params. cbn.
  by rewrite (quote_plus_pretty_Z size).
Qed.

(** ** AvatarResolver *)

Lemma hardcoded_avatars_inv u template :
  hardcoded_avatars !! u = Some template →
  u ∈ ["bodhi"; "koschei"; "taskotron"]
  ∧ template = "https://apps.fedoraproject.org/img/icons/" +:+ u +:+ "-{size}.png".
Proof.
  intros H%elem_of_list_to_map_2.
  repeat (apply elem_of_cons in H as [[= -> ->]|H]; [split; [set_solver | done] |]).
  by apply elem_of_nil in H.
Qed.

Lemma format_size_icon u size :
  u ∈ ["bodhi"; "koschei"; "taskotron"] →
  format_size ("https://apps.fedoraproject.org/img/icons/" +:+ u +:+ "-{size}.png") size
  = "https://apps.fedoraproject.org/img/icons/" +:+ u +:+ "-" +:+ size +:+ ".png".
Proof.
  intros H.
  repeat (apply elem_of_cons in H as [->|H]; [reflexivity |]).
  by apply elem_of_nil in H.
Qed.

Section AvatarProperties.
Variable sha256_hexdigest : string → string.
Variable md5_hexdigest : string → string.
Variable libravatar_url : libravatar_query → Z → string → string.

(** C5. For a username that is a key of the override table,
    [avatar_url] returns that key's template with [{size}] replaced by the
    size (the icon of that name and size), whatever [default] is and
    whatever the hash function and the federated resolver are: neither is
    consulted. *)
Theorem avatar_url_hardcoded (u template : string) (size : Z) (default : string) :
  hardcoded_avatars !! u = Some template →
  avatar_url sha256_hexdigest libravatar_url u size default
    = format_size template (pretty size)
  ∧ avatar_url sha256_hexdigest libravatar_url u size default
    = "https://apps.fedoraproject.org/img/icons/" +:+ u +:+ "-" +:+ pretty size +:+ ".png"
  ∧ ∀ sha' lib' default',
      avatar_url sha' lib' u size default'
      = avatar_url sha256_hexdigest libravatar_url u size default.
Proof.
  intros Hu. unfold avatar_url. rewrite Hu.
  destruct (hardcoded_avatars_inv _ _ Hu) as [Hin ->].
  split; [done |]. split; [by apply format_size_icon | done].
Qed.

(** C6. Without DNS, [avatar_url_from_openid] is a function of its three
    arguments alone and returns the libravatar address built from the
    SHA-256 hex digest of the OpenID string and the query [s=size] then
    [d=default] (the default URL-quoted). *)
Theorem avatar_url_from_openid_no_dns (openid : string) (size : Z) (default : string) :
  avatar_url_from_openid sha256_hexdigest libravatar_url openid size default false
  = "https://seccdn.libravatar.org/avatar/" +:+ sha256_hexdigest openid +:+ "?"
    +:+ ("s=" +:+ pretty size +:+ "&d=" +:+ quote_plus default)
  ∧ ∀ lib',
      avatar_url_from_openid sha256_hexdigest lib' openid size default false
      = avatar_url_from_openid sha256_hexdigest libravatar_url openid size default false.
Proof.
  unfold avatar_url_from_openid. split; [| done].
  cbv zeta. by rewrite ordered_query.
Qed.

(** C7. Without DNS, [avatar_url_from_email] returns an address of the
    same shape as the OpenID path, with the MD5 hex digest of the email
    where that path has the SHA-256 digest: it is the OpenID path run with
    MD5 as its hash. *)
Theorem avatar_url_from_email_no_dns (email : string) (size : Z) (default : string) :
  avatar_url_from_email md5_hexdigest libravatar_url email size default false
  = "https://seccdn.libravatar.org/avatar/" +:+ md5_hexdigest email +:+ "?"
    +:+ ("s=" +:+ pretty size +:+ "&d=" +:+ quote_plus default)
  ∧ avatar_url_from_email md5_hexdigest libravatar_url email size default false
    = avatar_url_from_openid md5_hexdigest libravatar_url email size default false.
Proof.
  unfold avatar_url_from_email, avatar_url_from_openid. split; [| done].
  cbv zeta. by rewrite ordered_query.
Qed.
End AvatarProperties.

(** ** The log and the cache *)

Lemma remote_calls_app t t' : remote_calls (t ++ t') = remote_calls t + remote_calls t'.
Proof. induction t as [|[] t IH]; simpl; congruence. Qed.

Lemma remote_calls_warm_events r n :
  remote_calls (mjoin (replicate n (warm_events r))) = 0.
Proof.
  induction n as [|n IH]; [done |].
  change (mjoin (replicate (S n) (warm_events r)))
    with (warm_events r ++ mjoin (replicate n (warm_events r)))%list.
  rewrite remote_calls_app, IH, Nat.add_0_r.
  unfold warm_events. by induction (warmed_keys _ _).
Qed.

Lemma warm_lookup keys value m k :
  warm keys value m !! k = if decide (k ∈ keys) then Some value else m !! k.
Proof.
  unfold warm. revert m. induction keys as [|k' keys IH]; intros m; [done |].
  cbn [fold_left]. rewrite IH.
  destruct (decide (k ∈ keys)) as [Hin|Hin], (decide (k ∈ k' :: keys)) as [Hin'|Hin'];
    try done.
  - destruct Hin'. by right.
  - apply elem_of_cons in Hin' as [->|?]; [apply lookup_insert_eq | done].
  - apply lookup_insert_ne. intros ->. apply Hin'. by left.
Qed.

Lemma warm_idemp keys value m :
  warm keys value (warm keys value m) = warm keys value m.
Proof. apply map_eq. intros k. rewrite !warm_lookup. by case_decide. Qed.

Lemma warm_nil value m : warm [] value m = m.
Proof. done. Qed.

Lemma warmed_keys_length email ircnick : (length (warmed_keys email ircnick) ≤ 2)%nat.
Proof. unfold warmed_keys. do 2 case_match; simpl; lia. Qed.

Lemma world_eta w : {| fas_region := fas_region w; trace := trace w |} = w.
Proof. by destruct w. Qed.

(** One pass of the loop body of [_search_fas]. *)
Lemma warm_pass r w :
  (if_truthy (email r) (λ email,
     region_set (function_key_generator "email2fas" [email]) (username r)) ;;;
   if_truthy (ircnick r) (λ ircnick,
     region_set (function_key_generator "nick2fas" [ircnick]) (username r))) w
  = (Ok tt,
     {| fas_region := warm (warmed_keys (email r) (ircnick r)) (username r) (fas_region w);
        trace := trace w ++ warm_events r |}).
Proof.
  unfold warm_events, warmed_keys, bind, if_truthy, region_set, ret, warm.
  destruct (email r) as [[|a e]|], (ircnick r) as [[|b n]|]; cbn;
    rewrite <- ?app_assoc, ?app_nil_r, ?world_eta; done.
Qed.

(** The whole loop: the same writes once per person, so the cache ends as
    after one pass. *)
Lemma warm_loop r (l : list person) w :
  l ≠ [] →
  for_each l (λ _,
    if_truthy (email r) (λ email,
      region_set (function_key_generator "email2fas" [email]) (username r)) ;;;
    if_truthy (ircnick r) (λ ircnick,
      region_set (function_key_generator "nick2fas" [ircnick]) (username r))) w
  = (Ok tt,
     {| fas_region := warm (warmed_keys (email r) (ircnick r)) (username r) (fas_region w);
        trace := trace w ++ mjoin (replicate (length l) (warm_events r)) |}).
Proof.
  intros Hl. destruct l as [|p l]; [done | clear Hl].
  revert p w. induction l as [|p' l IH]; intros p w.
  - cbn [for_each]. unfold bind at 1. rewrite warm_pass.
    cbn. by rewrite app_nil_r.
  - change (for_each (p :: p' :: l) ?b) with (b p ;;; for_each (p' :: l) b).
    unfold bind at 1. rewrite warm_pass, IH. cbn [fas_region trace].
    rewrite warm_idemp. cbn [length replicate mjoin].
    by rewrite <- !app_assoc.
Qed.

Lemma remote_calls_snoc_get t key : remote_calls (t ++ [CacheGet key]) = remote_calls t.
Proof. rewrite remote_calls_app. simpl. lia. Qed.

Lemma remote_calls_snoc_set t key value :
  remote_calls (t ++ [CacheSet key value]) = remote_calls t.
Proof. rewrite remote_calls_app. simpl. lia. Qed.

Lemma remote_calls_after_search q r w :
  remote_calls (trace (after_search q r w)) = S (remote_calls (trace w)).
Proof.
  unfold after_search. cbn [trace]. rewrite remote_calls_app. cbn [remote_calls].
  rewrite remote_calls_warm_events. lia.
Qed.

(** The key of a call that passes credentials is longer than the key the
    warming loop makes from the same identity, which leaves them out. *)
Lemma call_key_with_credentials dict_str fn_name arg c :
  call_key dict_str fn_name arg (Some c) ≠ function_key_generator fn_name [arg].
Proof.
  unfold call_key, function_key_generator. cbn [join]. intros H.
  apply (f_equal String.length) in H. rewrite !string_app_length in H.
  cbn [String.length] in H. lia.
Qed.

Section DirectoryProperties.
Variable dict_str : fas_credentials → string.
Variable send_request : nat → fas_request → reply.

(** ** What [_search_fas] does, case by case *)

Lemma _search_fas_eq s c by_email w :
  _search_fas send_request s c by_email w
  = match c with
    | PyNone => (Raise AttributeError, w)
    | PyDict d =>
        let q := fas_query s d by_email in
        match send_request (remote_calls (trace w)) q with
        | Failure e => (Raise (ClientError e), log (Request q) w)
        | Response r =>
            match people r with
            | [] => (Raise (ValueError no_fas_account), log (Request q) w)
            | _ :: _ => (Ok (people r), after_search q r w)
            end
        end
    end.
Proof.
  unfold _search_fas, fasclient_send_request, bind, raise, ret.
  destruct c as [|d]; [done |]. cbv zeta.
  destruct (send_request _ _) as [r|e]; [| done].
  destruct (people r) as [|p l] eqn:Hp; [done |].
  rewrite <- Hp.
  assert (people r ≠ []) as Hloop by (by rewrite Hp).
  apply (warm_loop r _ (log (Request (fas_query s d by_email)) w)) in Hloop.
  unfold bind in Hloop. rewrite Hloop.
  unfold after_search, log. cbn [fas_region trace].
  by rewrite <- app_assoc.
Qed.

(** ** What the decorator does on a hit and on a miss *)

Lemma cache_hit fn_name fn arg rest w value :
  fas_region w !! call_key dict_str fn_name arg rest = Some value →
  cache_on_arguments dict_str fn_name fn arg rest w
  = (Ok value, log (CacheGet (call_key dict_str fn_name arg rest)) w).
Proof.
  intros Hhit. unfold cache_on_arguments, bind, region_get, ret.
  fold (call_key dict_str fn_name arg rest). by rewrite Hhit.
Qed.

Lemma cache_miss fn_name fn arg rest w :
  fas_region w !! call_key dict_str fn_name arg rest = None →
  cache_on_arguments dict_str fn_name fn arg rest w
  = match fn arg (default PyNone rest)
            (log (CacheGet (call_key dict_str fn_name arg rest)) w) with
    | (Ok value, w') =>
        (Ok value,
         {| fas_region := <[call_key dict_str fn_name arg rest := value]> (fas_region w');
            trace := trace w' ++ [CacheSet (call_key dict_str fn_name arg rest) value] |})
    | (Raise e, w') => (Raise e, w')
    end.
Proof.
  intros Hmiss. unfold cache_on_arguments, bind, region_get, ret, region_set.
  fold (call_key dict_str fn_name arg rest). rewrite Hmiss.
  by destruct (fn _ _ _) as [[value|e] w'].
Qed.

Lemma nick2fas_fn_eq nickname c w :
  nick2fas_fn send_request nickname c w
  = single_match (_search_fas send_request nickname c false w).
Proof.
  unfold nick2fas_fn, bind, single_match.
  destruct (_search_fas _ _ _ _ _) as [[people|e] w']; [| done].
  destruct (1 <? length people)%nat; [done |]. by destruct people.
Qed.

Lemma email2fas_fn_eq email c w :
  email2fas_fn send_request email c w
  = if endswith email "@fedoraproject.org" then (Ok (rsplit1_head "@" email), w)
    else single_match (_search_fas send_request email c true w).
Proof.
  unfold email2fas_fn, bind, single_match.
  destruct (endswith _ _); [done |].
  destruct (_search_fas _ _ _ _ _) as [[people|e] w']; [| done].
  destruct (1 <? length people)%nat; [done |]. by destruct people.
Qed.

(** A call that misses the cache and whose body searches: the search,
    the validation, and the store if a name came out. *)
Lemma resolve_miss f arg rest w :
  let key := call_key dict_str (resolver_name f) arg rest in
  fas_region w !! key = None →
  searches f arg = true →
  resolve dict_str send_request f arg rest w
  = match single_match (_search_fas send_request arg (default PyNone rest)
                          (by_email_of f) (log (CacheGet key) w)) with
    | (Ok value, w') =>
        (Ok value, {| fas_region := <[key := value]> (fas_region w');
                      trace := trace w' ++ [CacheSet key value] |})
    | (Raise e, w') => (Raise e, w')
    end.
Proof.
  intros key Hmiss Hs. subst key.
  destruct f; cbn [resolve resolver_name by_email_of searches] in *.
  - unfold nick2fas. rewrite cache_miss by done. by rewrite nick2fas_fn_eq.
  - unfold email2fas. rewrite cache_miss by done. rewrite email2fas_fn_eq.
    by destruct (endswith arg _).
Qed.

(** C8. When the directory answers a search with no people,
    [_search_fas] raises the no-account [ValueError] having written
    nothing; a resolver call that made this search (it missed the cache,
    and it is not the short-circuited email case) raises that same error,
    and the cache is as it was before the call. *)
Theorem no_match_raises (f : resolver) (arg : string) (d : fas_credentials)
    (r : fas_response) (w : world) :
  let q := fas_query arg d (by_email_of f) in
  let key := call_key dict_str (resolver_name f) arg (Some (PyDict d)) in
  send_request (remote_calls (trace w)) q = Response r →
  people r = [] →
  _search_fas send_request arg (PyDict d) (by_email_of f) w
    = (Raise (ValueError no_fas_account), log (Request q) w)
  ∧ (searches f arg = true →
     fas_region w !! key = None →
     ∃ w', resolve dict_str send_request f arg (Some (PyDict d)) w
             = (Raise (ValueError no_fas_account), w')
           ∧ fas_region w' = fas_region w
           ∧ trace w' = (trace w ++ [CacheGet key; Request q])%list).
Proof.
  intros q key Hsend Hnone. subst q key. split.
  - rewrite _search_fas_eq. cbv zeta. by rewrite Hsend, Hnone.
  - intros Hs Hmiss. rewrite resolve_miss by done.
    rewrite _search_fas_eq. cbn [default from_option id]. cbv zeta.
    cbn [log trace]. rewrite remote_calls_snoc_get, Hsend, Hnone.
    eexists. split; [done |]. split; [done |].
    cbn. by rewrite <- app_assoc.
Qed.

(** C2, as the code has it. When the directory answers a search with two
    or more people, the resolver raises the multiple-users [ValueError]
    and stores nothing under the key of the call; but [_search_fas] has
    run its warming loop before returning, so the cache afterwards is the
    cache before with the response's user name stored under the email key
    of the top-level email and the nick key of the top-level IRC nickname,
    for each of the two that is present and not empty. The cache is
    unchanged exactly when the response carries neither. *)
Theorem ambiguous_match_raises_after_warming (f : resolver) (arg : string)
    (d : fas_credentials) (r : fas_response) (w : world) :
  let q := fas_query arg d (by_email_of f) in
  let key := call_key dict_str (resolver_name f) arg (Some (PyDict d)) in
  send_request (remote_calls (trace w)) q = Response r →
  (2 ≤ length (people r))%nat →
  searches f arg = true →
  fas_region w !! key = None →
  ∃ w', resolve dict_str send_request f arg (Some (PyDict d)) w
          = (Raise (ValueError multiple_users), w')
        ∧ fas_region w'
          = warm (warmed_keys (email r) (ircnick r)) (username r) (fas_region w)
        ∧ trace w'
          = (trace w ++ CacheGet key :: Request q
               :: mjoin (replicate (length (people r)) (warm_events r)))%list
        ∧ (key ∉ warmed_keys (email r) (ircnick r) → fas_region w' !! key = None)
        ∧ (truthy (email r) = None → truthy (ircnick r) = None →
           fas_region w' = fas_region w).
Proof.
  intros q key Hsend Hlen Hs Hmiss. subst q key. rewrite resolve_miss by done.
  rewrite _search_fas_eq. cbn [default from_option id]. cbv zeta.
  cbn [log trace]. rewrite remote_calls_snoc_get, Hsend.
  destruct (people r) as [|p1 [|p2 l]] eqn:Hp; cbn [length] in Hlen; [lia | lia |].
  rewrite <- Hp. unfold single_match.
  replace (1 <? length (people r))%nat with true
    by (symmetry; apply Nat.ltb_lt; rewrite Hp; cbn [length]; lia).
  eexists. split; [done |]. cbn [after_search log fas_region trace].
  split; [done |]. split; [by rewrite <- app_assoc |]. split.
  - intros Hout. rewrite warm_lookup. by rewrite decide_False.
  - intros He Hn. unfold warmed_keys. by rewrite He, Hn.
Qed.

(** C10. A search that finds somebody returns the people and warms the
    cache from the top-level fields of the response only: the keys
    written are the one-argument email key of the top-level email and the
    one-argument nick key of the top-level IRC nickname (no credentials in
    either), each only if the field is present and not empty; every write
    stores the top-level user name; so at most two keys are written,
    however many people there are, and every other entry is as before. No
    field of a person enters: the result is stated with the response's
    [email], [ircnick] and [username] alone. *)
Theorem warming_reads_top_level_only (s : string) (d : fas_credentials)
    (by_email : bool) (r : fas_response) (w : world) :
  let q := fas_query s d by_email in
  let keys := warmed_keys (email r) (ircnick r) in
  send_request (remote_calls (trace w)) q = Response r →
  people r ≠ [] →
  ∃ w' writes,
    _search_fas send_request s (PyDict d) by_email w = (Ok (people r), w')
    ∧ trace w' = (trace w ++ Request q :: writes)%list
    ∧ (∀ e, e ∈ writes → ∃ k, e = CacheSet k (username r) ∧ k ∈ keys)
    ∧ (∀ k, fas_region w' !! k
            = if decide (k ∈ keys) then Some (username r) else fas_region w !! k)
    ∧ (length keys ≤ 2)%nat
    ∧ (∀ k, k ∈ keys →
         (∃ e, email r = Some e ∧ e ≠ "" ∧ k = function_key_generator "email2fas" [e])
         ∨ (∃ n, ircnick r = Some n ∧ n ≠ ""
                 ∧ k = function_key_generator "nick2fas" [n])).
Proof.
  intros q keys Hsend Hp. subst q keys.
  rewrite _search_fas_eq. cbv zeta. rewrite Hsend.
  destruct (people r) as [|p l] eqn:Hpeople; [done |]. rewrite <- Hpeople.
  eexists _, _. split; [done |]. cbn [after_search fas_region trace].
  split; [done |]. split; [| split; [| split]].
  - intros e He. induction (length (people r)) as [|n IH].
    + by apply elem_of_nil in He.
    + change (mjoin (replicate (S n) (warm_events r)))
        with (warm_events r ++ mjoin (replicate n (warm_events r)))%list in He.
      apply elem_of_app in He as [He|He]; [| by apply IH].
      unfold warm_events in He. apply list_elem_of_fmap in He as (k & -> & Hk).
      by exists k.
  - intros k. apply warm_lookup.
  - apply warmed_keys_length.
  - intros k Hk. unfold warmed_keys, truthy in Hk.
    apply elem_of_app in Hk as [Hk|Hk]; [left | right].
    + destruct (email r) as [[|a e]|]; try (by apply elem_of_nil in Hk).
      apply list_elem_of_singleton in Hk. by exists (String a e).
    + destruct (ircnick r) as [[|a n]|]; try (by apply elem_of_nil in Hk).
      apply list_elem_of_singleton in Hk. by exists (String a n).
Qed.

(** ** Memoisation *)



Lemma resolve_hit f arg rest w value :
  fas_region w !! call_key dict_str (resolver_name f) arg rest = Some value →
  resolve dict_str send_request f arg rest w
  = (Ok value, log (CacheGet (call_key dict_str (resolver_name f) arg rest)) w).
Proof. destruct f; apply cache_hit. Qed.

(** One search changes the log by at most one request and never removes
    a cache entry. *)
Lemma _search_fas_footprint s c by_email w res w' :
  _search_fas send_request s c by_email w = (res, w') →
  (remote_calls (trace w') ≤ S (remote_calls (trace w)))%nat
  ∧ ∀ k, is_Some (fas_region w !! k) → is_Some (fas_region w' !! k).
Proof.
  rewrite _search_fas_eq. destruct c as [|d]; [intros [= <- <-]; auto |].
  cbv zeta. destruct (send_request _ _) as [r|e].
  - destruct (people r); intros [= <- <-].
    + unfold log. cbn. rewrite remote_calls_app. cbn. split; [lia | done].
    + rewrite remote_calls_after_search. split; [lia |].
      intros k Hk. cbn. rewrite warm_lookup. by case_decide.
  - intros [= <- <-]. unfold log. cbn. rewrite remote_calls_app. cbn.
    split; [lia | done].
Qed.

Lemma single_match_world found : (single_match found).2 = found.2.
Proof.
  destruct found as [[people|e] w]; [| done]. cbn [single_match].
  destruct (1 <? length people)%nat; [done |]. by destruct people.
Qed.

Lemma resolve_footprint f arg rest w res w' :
  resolve dict_str send_request f arg rest w = (res, w') →
  (remote_calls (trace w') ≤ S (remote_calls (trace w)))%nat
  ∧ ∀ k, is_Some (fas_region w !! k) → is_Some (fas_region w' !! k).
Proof.
  set (key := call_key dict_str (resolver_name f) arg rest).
  destruct (fas_region w !! key) as [v|] eqn:Hk.
  { rewrite (resolve_hit _ _ _ _ v) by done. intros [= <- <-].
    unfold log. cbn. rewrite remote_calls_snoc_get. split; [lia | done]. }
  assert (∀ found : result (list person) * world,
    (remote_calls (trace found.2) ≤ S (remote_calls (trace w)))%nat →
    (∀ k, is_Some (fas_region w !! k) → is_Some (fas_region found.2 !! k)) →
    match single_match found with
    | (Ok value, w1) =>
        (Ok value, {| fas_region := <[key := value]> (fas_region w1);
                      trace := trace w1 ++ [CacheSet key value] |})
    | (Raise e, w1) => (Raise e, w1)
    end = (res, w') →
    (remote_calls (trace w') ≤ S (remote_calls (trace w)))%nat
    ∧ ∀ k, is_Some (fas_region w !! k) → is_Some (fas_region w' !! k)) as Hfound.
  { intros found Hcalls Hkeep. rewrite <- single_match_world in Hcalls, Hkeep.
    destruct (single_match found) as [[v|e] w1]; intros [= <- <-]; cbn in *.
    - rewrite remote_calls_snoc_set. split; [done |].
      intros k Hsome. destruct (decide (key = k)) as [<-|Hne].
      + rewrite lookup_insert_eq. by eexists.
      + rewrite lookup_insert_ne by done. by apply Hkeep.
    - by split. }
  destruct (searches f arg) eqn:Hs.
  - rewrite resolve_miss by done. fold key.
    destruct (_search_fas send_request arg (default PyNone rest) (by_email_of f)
                (log (CacheGet key) w)) as [found w1] eqn:Hsearch.
    apply _search_fas_footprint in Hsearch as [Hcalls Hkeep].
    unfold log in Hcalls, Hkeep. cbn in Hcalls, Hkeep.
    rewrite remote_calls_snoc_get in Hcalls.
    by apply (Hfound (found, w1)).
  - destruct f; [done |]. cbn [searches] in Hs. apply negb_false_iff in Hs.
    cbn [resolve resolver_name] in *. unfold email2fas.
    rewrite cache_miss by done. rewrite email2fas_fn_eq, Hs.
    intros [= <- <-]. cbn. rewrite remote_calls_snoc_set, remote_calls_snoc_get.
    split; [lia |]. intros k Hsome.
    destruct (decide (key = k)) as [<-|Hne].
    + fold key. rewrite lookup_insert_eq. by eexists.
    + fold key. by rewrite lookup_insert_ne.
Qed.

Lemma run_calls_keeps calls : ∀ w k,
  is_Some (fas_region w !! k) →
  is_Some (fas_region (run_calls dict_str send_request calls w) !! k).
Proof.
  induction calls as [|[[f arg] rest] calls IH]; intros w k Hk; [done |].
  cbn [run_calls]. apply IH.
  destruct (resolve dict_str send_request f arg rest w) as [res w'] eqn:Hcall.
  by apply (resolve_footprint _ _ _ _ _ _ Hcall).
Qed.





(** ** The short circuit for the fedoraproject domain *)

Lemma email2fas_fedoraproject_eq l rest w :
  let email := l +:+ "@fedoraproject.org" in
  let key := call_key dict_str "email2fas" email rest in
  email2fas dict_str send_request email rest w
  = match fas_region w !! key with
    | Some value => (Ok value, log (CacheGet key) w)
    | None =>
        (Ok l, {| fas_region := <[key := l]> (fas_region w);
                  trace := trace w ++ [CacheGet key; CacheSet key l] |})
    end.
Proof.
  intros email key. subst email key. unfold email2fas.
  destruct (fas_region w !! _) as [value|] eqn:Hk.
  - by apply cache_hit.
  - rewrite cache_miss by done.
    rewrite email2fas_fn_eq, endswith_app, rsplit1_head_fedoraproject.
    unfold log. cbn. by rewrite <- app_assoc.
Qed.

(** For an email of the fedoraproject domain, [email2fas] never searches
    the directory, whatever the second argument is and whatever the cache
    holds. It returns the local part when the cache has nothing under the
    key of the call; when the cache has an entry under that key, the
    decorator returns the entry. *)
Theorem email2fas_fedoraproject_no_search (l : string)
    (rest : option py_credentials) (w : world) :
  let email := l +:+ "@fedoraproject.org" in
  let key := call_key dict_str "email2fas" email rest in
  ∃ res w',
    email2fas dict_str send_request email rest w = (res, w')
    ∧ remote_calls (trace w') = remote_calls (trace w)
    ∧ res = Ok (default l (fas_region w !! key))
    ∧ (fas_region w !! key = None → res = Ok l)
    ∧ (∀ value, fas_region w !! key = Some value → res = Ok value).
Proof.
  intros email key. subst email key. rewrite email2fas_fedoraproject_eq. cbv zeta.
  destruct (fas_region w !! _) as [value|]; eexists _, _; (split; [done |]).
  - unfold log. cbn. rewrite remote_calls_snoc_get.
    repeat split; [done | congruence].
  - cbn. rewrite remote_calls_app. cbn. repeat split; [lia | done].
Qed.

(** C4, as the code has it. For an email of the fedoraproject domain,
    [email2fas] does look its key up in the cache, because the decorator
    runs before the body. On a miss the body returns the local part without
    a search and the decorator stores it: the call adds exactly one entry,
    the local part under the key of the call, and leaves every other key
    alone. On a hit the cache is unchanged. *)
Theorem email2fas_fedoraproject_cache (l : string)
    (rest : option py_credentials) (w : world) :
  let email := l +:+ "@fedoraproject.org" in
  let key := call_key dict_str "email2fas" email rest in
  ∃ res w',
    email2fas dict_str send_request email rest w = (res, w')
    ∧ trace w'
      = (trace w ++ CacheGet key
           :: match fas_region w !! key with
              | Some _ => []
              | None => [CacheSet key l]
              end)%list
    ∧ fas_region w'
      = match fas_region w !! key with
        | Some _ => fas_region w
        | None => <[key := l]> (fas_region w)
        end
    ∧ ∀ k, k ≠ key → fas_region w' !! k = fas_region w !! k.
Proof.
  intros email key. subst email key. rewrite email2fas_fedoraproject_eq. cbv zeta.
  destruct (fas_region w !! _) as [value|]; eexists _, _; (split; [done |]); cbn.
  - done.
  - repeat split. intros k Hk. by apply lookup_insert_ne.
Qed.
End DirectoryProperties.

(** ** The calls worked out on the sample directory *)

(** C1. The warming does not serve a later call that passes credentials.
    The directory knows one person, with an email and an IRC nickname, and
    its top-level fields say the same. [nick2fas] with credentials finds the
    name with one request, and warms the email key made from the email
    alone. [email2fas] for that email with the same credentials looks under
    the key that also holds the credentials, misses, and sends a second
    request. *)
Theorem warming_misses_call_with_credentials :
  let creds := Some (PyDict sample_creds) in
  let first := nick2fas sample_dict_str (always one_bob) "bobby" creds empty_world in
  let second := email2fas sample_dict_str (always one_bob) "bob@example.com" creds first.2 in
  first.1 = Ok "bob"
  ∧ remote_calls (trace first.2) = 1
  ∧ fas_region first.2 !! function_key_generator "email2fas" ["bob@example.com"]
    = Some "bob"
  ∧ fas_region first.2 !! call_key sample_dict_str "email2fas" "bob@example.com" creds
    = None
  ∧ second.1 = Ok "bob"
  ∧ remote_calls (trace second.2) = 2.
Proof. vm_compute. repeat split. Qed.

(** The same for every directory, rendering and credentials: the key the
    loop warms for an identity is never the key of a call that passes that
    identity together with credentials. *)
Lemma warmed_key_is_not_call_key dict_str (f : resolver) (arg : string)
    (c : py_credentials) :
  function_key_generator (resolver_name f) [arg]
  ≠ call_key dict_str (resolver_name f) arg (Some c).
Proof. intros H. by apply (call_key_with_credentials dict_str (resolver_name f) arg c). Qed.

(** C2 fails as stated: two people are found, the call raises, and the
    cache, empty before, holds the warmed entries afterwards. *)
Lemma ambiguous_match_writes_cache :
  let creds := Some (PyDict sample_creds) in
  let out := nick2fas sample_dict_str (always two_bobs) "bobby" creds empty_world in
  length (people two_bobs) = 2
  ∧ out.1 = Raise (ValueError multiple_users)
  ∧ fas_region empty_world !! function_key_generator "email2fas" ["bob@example.com"]
    = None
  ∧ fas_region out.2 !! function_key_generator "email2fas" ["bob@example.com"]
    = Some "bob"
  ∧ fas_region out.2 ≠ fas_region empty_world.
Proof.
  cbv zeta. repeat split; try (vm_compute; reflexivity). intros H.
  apply (f_equal (λ m : gmap string string,
           (m !! function_key_generator "email2fas" ["bob@example.com"]
            : option string))) in H.
  vm_compute in H. discriminate.
Qed.



(** C4 fails as stated. The call of the repository's own test,
    [email2fas('jcline@fedoraproject.org')], on an empty cache: the cache
    is read under the key of the call, and the local part is written under
    it. The same happens when credentials are passed. *)
Lemma short_circuit_reads_and_writes_cache :
  let creds := Some (PyDict sample_creds) in
  let key := function_key_generator "email2fas" ["jcline@fedoraproject.org"] in
  let key' := call_key sample_dict_str "email2fas" "jcline@fedoraproject.org" creds in
  let out :=
    email2fas sample_dict_str (always nobody) "jcline@fedoraproject.org" None empty_world in
  let out' :=
    email2fas sample_dict_str (always nobody) "jcline@fedoraproject.org" creds empty_world in
  (out.1 = Ok "jcline"
   ∧ trace out.2 = [CacheGet key; CacheSet key "jcline"]
   ∧ fas_region empty_world !! key = None
   ∧ fas_region out.2 !! key = Some "jcline")
  ∧ (out'.1 = Ok "jcline"
     ∧ trace out'.2 = [CacheGet key'; CacheSet key' "jcline"]
     ∧ fas_region empty_world !! key' = None
     ∧ fas_region out'.2 !! key' = Some "jcline").
Proof. cbv zeta. repeat split; vm_compute; reflexivity. Qed.

(** ** The theorems at sample inputs *)

Lemma avatar_url_hardcoded_witness :
  hardcoded_avatars !! "bodhi"
    = Some "https://apps.fedoraproject.org/img/icons/bodhi-{size}.png"
  ∧ avatar_url (λ _, "") (λ _ _ _, "") "bodhi" 64 "retro"
    = "https://apps.fedoraproject.org/img/icons/bodhi-64.png".
Proof.
  split; [reflexivity |].
  exact (proj1 (proj2 (avatar_url_hardcoded (λ _, "") (λ _ _ _, "") "bodhi"
    "https://apps.fedoraproject.org/img/icons/bodhi-{size}.png" 64 "retro" eq_refl))).
Defined.

Lemma no_match_raises_witness :
  let q := fas_query "ghost" sample_creds false in
  always nobody (remote_calls (trace empty_world)) q = Response nobody
  ∧ people nobody = []
  ∧ _search_fas (always nobody) "ghost" (PyDict sample_creds) false empty_world
    = (Raise (ValueError no_fas_account), log (Request q) empty_world).
Proof.
  cbv zeta. split; [reflexivity |]. split; [reflexivity |].
  exact (proj1 (no_match_raises sample_dict_str (always nobody) Nick2fas "ghost"
    sample_creds nobody empty_world eq_refl eq_refl)).
Defined.

Lemma ambiguous_match_raises_after_warming_witness :
  let q := fas_query "bobby" sample_creds false in
  let key := call_key sample_dict_str "nick2fas" "bobby" (Some (PyDict sample_creds)) in
  always two_bobs (remote_calls (trace empty_world)) q = Response two_bobs
  ∧ (2 ≤ length (people two_bobs))%nat
  ∧ searches Nick2fas "bobby" = true
  ∧ fas_region empty_world !! key = None
  ∧ ∃ w', nick2fas sample_dict_str (always two_bobs) "bobby"
            (Some (PyDict sample_creds)) empty_world
          = (Raise (ValueError multiple_users), w')
        ∧ fas_region w'
          = warm (warmed_keys (email two_bobs) (ircnick two_bobs)) (username two_bobs)
              (fas_region empty_world).
Proof.
  cbv zeta. split; [reflexivity |]. split; [cbn; lia |].
  split; [reflexivity |]. split; [reflexivity |].
  destruct (ambiguous_match_raises_after_warming sample_dict_str (always two_bobs)
    Nick2fas "bobby" sample_creds two_bobs empty_world eq_refl
    ltac:(cbn; lia) eq_refl eq_refl) as (w' & Hcall & Hregion & _).
  by exists w'.
Defined.

Lemma warming_reads_top_level_only_witness :
  let q := fas_query "bobby" sample_creds false in
  always two_bobs (remote_calls (trace empty_world)) q = Response two_bobs
  ∧ people two_bobs ≠ []
  ∧ ∃ w' writes,
      _search_fas (always two_bobs) "bobby" (PyDict sample_creds) false empty_world
        = (Ok (people two_bobs), w')
      ∧ trace w' = (trace empty_world ++ Request q :: writes)%list.
Proof.
  cbv zeta. split; [reflexivity |]. split; [discriminate |].
  destruct (warming_reads_top_level_only (always two_bobs) "bobby" sample_creds false
    two_bobs empty_world eq_refl ltac:(discriminate)) as (w' & writes & Hcall & Htrace & _).
  by exists w', writes.
Defined.


Lemma email2fas_fedoraproject_no_search_witness :
  fas_region empty_world !! function_key_generator "email2fas" ["jcline@fedoraproject.org"]
    = None
  ∧ ∃ w', email2fas sample_dict_str (always nobody) "jcline@fedoraproject.org" None
            empty_world = (Ok "jcline", w')
          ∧ remote_calls (trace w') = remote_calls (trace empty_world).
Proof.
  split; [reflexivity |].
  destruct (email2fas_fedoraproject_no_search sample_dict_str (always nobody) "jcline"
    None empty_world) as (res & w' & Hcall & Hcalls & _ & Hmiss & _).
  exists w'. split; [| exact Hcalls].
  rewrite <- (Hmiss eq_refl). exact Hcall.
Defined.

Lemma email2fas_fedoraproject_cache_witness :
  let key := function_key_generator "email2fas" ["jcline@fedoraproject.org"] in
  ∃ res w', email2fas sample_dict_str (always nobody) "jcline@fedoraproject.org" None
              empty_world = (res, w')
            ∧ trace w' = [CacheGet key; CacheSet key "jcline"]
            ∧ fas_region w' = <[key := "jcline"]> (fas_region empty_world).
Proof.
  destruct (email2fas_fedoraproject_cache sample_dict_str (always nobody) "jcline"
    None empty_world) as (res & w' & Hcall & Htrace & Hregion & _).
  by exists res, w'.
Defined.

(** * Further properties of the module *)

(** ** AvatarResolver *)

Lemma hardcoded_avatars_None u :
  u ∉ ["bodhi"; "koschei"; "taskotron"] → hardcoded_avatars !! u = None.
Proof. intros Hu. by apply not_elem_of_list_to_map_1. Qed.

(** For a user name outside the override table, [avatar_url] is the
    libravatar address of the OpenID [http://<name>.id.fedoraproject.org/]:
    the SHA-256 digest of that string and the query [s] then [d]. For every
    user name, in the table or not, the federated resolver is never asked:
    [avatar_url] does not take the DNS path. *)
Theorem avatar_url_fallback (sha256_hexdigest : string → string)
    (libravatar_url : libravatar_query → Z → string → string)
    (u : string) (size : Z) (default : string) :
  u ∉ ["bodhi"; "koschei"; "taskotron"] →
  avatar_url sha256_hexdigest libravatar_url u size default
  = "https://seccdn.libravatar.org/avatar/"
    +:+ sha256_hexdigest ("http://" +:+ u +:+ ".id.fedoraproject.org/")
    +:+ "?" +:+ ("s=" +:+ pretty size +:+ "&d=" +:+ quote_plus default)
  ∧ ∀ u' size' default' lib',
      avatar_url sha256_hexdigest lib' u' size' default'
      = avatar_url sha256_hexdigest libravatar_url u' size' default'.
Proof.
  intros Hu. split.
  - unfold avatar_url. rewrite hardcoded_avatars_None by done.
    unfold avatar_url_from_openid. cbv zeta. by rewrite ordered_query.
  - intros u' size' default' lib'. unfold avatar_url. by case_match.
Qed.

Lemma avatar_url_fallback_witness :
  ("bob" ∉ ["bodhi"; "koschei"; "taskotron"])
  ∧ avatar_url (λ _, "5e") (λ _ _ _, "") "bob" 64 "retro"
    = "https://seccdn.libravatar.org/avatar/5e?s=64&d=retro".
Proof.
  assert ("bob" ∉ ["bodhi"; "koschei"; "taskotron"]) as Hbob.
  { intros H. repeat (apply elem_of_cons in H as [H|H]; [discriminate |]).
    by apply elem_of_nil in H. }
  split; [exact Hbob |].
  exact (proj1 (avatar_url_fallback (λ _, "5e") (λ _ _ _, "") "bob" 64 "retro" Hbob)).
Defined.

(** ** The query parameters *)

Lemma ordered_set_fresh k v (d : list (string * string)) :
  k ∉ d.*1 → ordered_set k v d = (d ++ [(k, v)])%list.
Proof.
  induction d as [|[k' v'] d IH]; intros Hk; [done |].
  cbn [ordered_set]. cbn in Hk. apply not_elem_of_cons in Hk as [Hne Hk].
  destruct (String.eqb_spec k' k) as [->|_]; [done |].
  by rewrite IH.
Qed.

Lemma ordered_set_keys k v (d : list (string * string)) :
  (ordered_set k v d).*1 = if decide (k ∈ d.*1) then d.*1 else (d.*1 ++ [k])%list.
Proof.
  induction d as [|[k' v'] d IH]; [done |].
  cbn [ordered_set]. destruct (String.eqb_spec k' k) as [->|Hne].
  - cbn. rewrite decide_True; [done | by left].
  - cbn. rewrite IH. destruct (decide (k ∈ d.*1)) as [Hin|Hin].
    + rewrite decide_True; [done | by right].
    + rewrite decide_False; [done |].
      intros [?|?]%elem_of_cons; [by subst | done].
Qed.

Lemma ordered_set_NoDup k v (d : list (string * string)) : NoDup d.*1 → NoDup (ordered_set k v d).*1.
Proof.
  intros Hd. rewrite ordered_set_keys. case_decide; [done |].
  apply NoDup_app. split; [done |]. split; [| apply NoDup_singleton].
  intros x Hx ->%list_elem_of_singleton. done.
Qed.

Lemma ordered_fold_NoDup (params : list (string * string)) :
  ∀ d : list (string * string),
  NoDup d.*1 →
  NoDup (fold_left (λ d kv, ordered_set kv.1 kv.2 d) params d).*1.
Proof.
  induction params as [|[k v] params IH]; intros d Hd; [done |].
  cbn [fold_left]. apply IH. by apply ordered_set_NoDup.
Qed.

Lemma ordered_fold_distinct (params : list (string * string)) :
  ∀ d : list (string * string),
  NoDup ((d ++ params)%list).*1 →
  fold_left (λ d kv, ordered_set kv.1 kv.2 d) params d = (d ++ params)%list.
Proof.
  induction params as [|[k v] params IH]; intros d Hd; [by rewrite app_nil_r |].
  cbn [fold_left fst snd].
  rewrite fmap_app in Hd. apply NoDup_app in Hd as (Hd & Hdisj & Hp).
  cbn in Hp. apply NoDup_cons in Hp as [Hk Hp].
  rewrite ordered_set_fresh.
  - rewrite IH; [by rewrite <- app_assoc |].
    rewrite !fmap_app. cbn. rewrite <- app_assoc. cbn.
    apply NoDup_app. split; [done |]. split; [done |]. by apply NoDup_cons.
  - intros Hin. apply (Hdisj k Hin). by left.
Qed.

(** [_ordered_query_params] never yields a key twice, whatever pairs it
    is given, and it hands back pairs whose keys are all different exactly
    as they came, in their order: the order the source keeps for the query
    string. *)
Theorem ordered_query_params_keeps_order (params : list (string * string)) :
  NoDup (_ordered_query_params params).*1
  ∧ (NoDup params.*1 → _ordered_query_params params = params).
Proof.
  unfold _ordered_query_params. split.
  - apply ordered_fold_NoDup. constructor.
  - intros Hp. by rewrite ordered_fold_distinct.
Qed.

Lemma ordered_query_params_keeps_order_witness :
  NoDup [("s", "64"); ("d", "retro")].*1
  ∧ _ordered_query_params [("s", "64"); ("d", "retro")] = [("s", "64"); ("d", "retro")].
Proof.
  assert (NoDup [("s", "64"); ("d", "retro")].*1) as Hp.
  { cbn. apply NoDup_cons. split.
    - intros ?%list_elem_of_singleton. discriminate.
    - apply NoDup_singleton. }
  split; [exact Hp |].
  exact (proj2 (ordered_query_params_keeps_order [("s", "64"); ("d", "retro")]) Hp).
Defined.

(** ** What a quoted value can contain *)

Lemma hex_digit_safe n : always_safe (hex_digit n) = true.
Proof. unfold hex_digit. by repeat case_match. Qed.

Lemma quote_plus_chars s : string_forallb query_char (quote_plus s) = true.
Proof.
  induction s as [|a s IH]; [done |]. cbn [quote_plus].
  destruct (always_safe a) eqn:Ha.
  - cbn [string_forallb]. unfold query_char at 1. by rewrite Ha, IH.
  - destruct (Ascii.eqb a " "); cbn [string_forallb]; [by rewrite IH |].
    rewrite IH. unfold query_char. by rewrite !hex_digit_safe.
Qed.

Lemma string_forallb_app p s t :
  string_forallb p (s +:+ t) = string_forallb p s && string_forallb p t.
Proof.
  induction s as [|a s IH]; [done |].
  rewrite string_app_cons. cbn [string_forallb]. by rewrite IH, andb_assoc.
Qed.

Lemma string_forallb_absent p c s :
  string_forallb p s = true → p c = false → contains c s = false.
Proof.
  intros Hs Hc. induction s as [|a s IH]; [done |].
  cbn [string_forallb contains] in *. apply andb_true_iff in Hs as [Ha Hs].
  rewrite (IH Hs), orb_false_r.
  destruct (Ascii.eqb_spec a c) as [->|]; [congruence | done].
Qed.

(** The query of both hash paths holds exactly the two parameters, whatever
    [default] is: the size and the quoted default consist of safe
    characters, percent escapes and plus signs only, so neither can hold an
    ampersand, an equals sign, a question mark, a hash sign, a slash or a
    space that would end the value or start another parameter. *)
Theorem avatar_query_is_quoted (sha256_hexdigest md5_hexdigest : string → string)
    (libravatar_url : libravatar_query → Z → string → string)
    (identity : string) (size : Z) (default : string) :
  ∃ s d,
    avatar_url_from_openid sha256_hexdigest libravatar_url identity size default false
    = "https://seccdn.libravatar.org/avatar/" +:+ sha256_hexdigest identity
      +:+ "?s=" +:+ s +:+ "&d=" +:+ d
    ∧ avatar_url_from_email md5_hexdigest libravatar_url identity size default false
      = "https://seccdn.libravatar.org/avatar/" +:+ md5_hexdigest identity
        +:+ "?s=" +:+ s +:+ "&d=" +:+ d
    ∧ string_forallb query_char s = true
    ∧ string_forallb query_char d = true
    ∧ Forall (λ c, contains c s = false ∧ contains c d = false)
        ["&"; "="; "?"; "#"; "/"; " "]%char.
Proof.
  exists (pretty size), (quote_plus default).
  assert (string_forallb query_char (pretty size) = true) as Hs
    by (rewrite <- quote_plus_pretty_Z; apply quote_plus_chars).
  pose proof (quote_plus_chars default) as Hd.
  unfold avatar_url_from_openid, avatar_url_from_email. cbv zeta.
  rewrite ordered_query. repeat split; try done.
  repeat (apply Forall_cons; split;
          [split; by apply (string_forallb_absent query_char) |]).
  apply Forall_nil_2.
Qed.

(** ** Cache keys *)

Lemma string_app_inv_head (p s t : string) : p +:+ s = p +:+ t → s = t.
Proof.
  induction p as [|a p IH]; [done |].
  rewrite !string_app_cons. intros [= H]. by apply IH.
Qed.

Lemma key_prefix_nick_email a b :
  function_key_generator "nick2fas" a ≠ function_key_generator "email2fas" b.
Proof.
  unfold function_key_generator, module_name. intros H.
  change (("fedmsg_meta_fedora_infrastructure.fasshim" +:+ ":" +:+ "nick2fas")
            +:+ "|" +:+ join " " a)
    with ("fedmsg_meta_fedora_infrastructure.fasshim:"
            +:+ ("nick2fas|" +:+ join " " a)) in H.
  change (("fedmsg_meta_fedora_infrastructure.fasshim" +:+ ":" +:+ "email2fas")
            +:+ "|" +:+ join " " b)
    with ("fedmsg_meta_fedora_infrastructure.fasshim:"
            +:+ ("email2fas|" +:+ join " " b)) in H.
  apply string_app_inv_head in H. discriminate.
Qed.

(** The entries of the two resolvers never share a key, whatever the
    arguments: the key starts with the function's name. Within one
    resolver, the one-argument keys, which are the keys the warming loop
    writes, are different for different identities. *)
Theorem cache_keys_separate (f : resolver) (x y : string) (a b : list string) :
  function_key_generator "nick2fas" a ≠ function_key_generator "email2fas" b
  ∧ (function_key_generator (resolver_name f) [x]
     = function_key_generator (resolver_name f) [y] → x = y).
Proof.
  split; [apply key_prefix_nick_email |].
  unfold function_key_generator. cbn [join]. intros H.
  by do 2 apply string_app_inv_head in H.
Qed.

Lemma cache_keys_separate_witness :
  function_key_generator (resolver_name Nick2fas) ["bobby"]
  = function_key_generator (resolver_name Nick2fas) ["bobby"]
  ∧ "bobby" = "bobby".
Proof.
  split; [reflexivity |].
  exact (proj2 (cache_keys_separate Nick2fas "bobby" "bobby" [] []) eq_refl).
Defined.

(** ** The resolvers, case by case *)

Section ResolverCases.
Variable dict_str : fas_credentials → string.
Variable send_request : nat → fas_request → reply.

(** Every way a call of a resolver can go. *)
Lemma resolve_eq f arg rest w :
  let key := call_key dict_str (resolver_name f) arg rest in
  let w0 := log (CacheGet key) w in
  resolve dict_str send_request f arg rest w
  = match fas_region w !! key with
    | Some value => (Ok value, w0)
    | None =>
        if searches f arg then
          match default PyNone rest with
          | PyNone => (Raise AttributeError, w0)
          | PyDict d =>
              let q := fas_query arg d (by_email_of f) in
              match send_request (remote_calls (trace w)) q with
              | Failure e => (Raise (ClientError e), log (Request q) w0)
              | Response r =>
                  match people r with
                  | [] => (Raise (ValueError no_fas_account), log (Request q) w0)
                  | [p] => (Ok (person_username p),
                            stored key (person_username p) (after_search q r w0))
                  | _ :: _ :: _ => (Raise (ValueError multiple_users), after_search q r w0)
                  end
              end
          end
        else (Ok (rsplit1_head "@" arg), stored key (rsplit1_head "@" arg) w0)
    end.
Proof.
  intros key w0. subst key w0.
  destruct (fas_region w !! _) as [value|] eqn:Hk; [by apply resolve_hit |].
  destruct (searches f arg) eqn:Hs.
  - rewrite resolve_miss by done. rewrite _search_fas_eq.
    destruct (default PyNone rest) as [|d]; [done |]. cbv zeta.
    cbn [log trace]. rewrite remote_calls_snoc_get.
    destruct (send_request _ _) as [r|e]; [| done].
    destruct (people r) as [|p [|p' l]] eqn:Hp; try done.
  - destruct f; [done |]. cbn [searches] in Hs. apply negb_false_iff in Hs.
    cbn [resolve resolver_name]. unfold email2fas.
    rewrite cache_miss by done. by rewrite email2fas_fn_eq, Hs.
Qed.

(** A call without credentials (the second argument left out, or [None])
    never reaches the directory: it returns what the cache holds under its
    key, or the local part of a fedoraproject address; otherwise the body
    fails on [fas_credentials.get] with an [AttributeError], before any
    request, and the cache is as before. *)
Theorem resolve_without_credentials (f : resolver) (arg : string)
    (rest : option py_credentials) (w : world) :
  let key := call_key dict_str (resolver_name f) arg rest in
  default PyNone rest = PyNone →
  ∃ res w',
    resolve dict_str send_request f arg rest w = (res, w')
    ∧ remote_calls (trace w') = remote_calls (trace w)
    ∧ (fas_region w !! key = None → searches f arg = true →
       res = Raise AttributeError ∧ fas_region w' = fas_region w).
Proof.
  intros key Hnone. subst key. rewrite resolve_eq. cbv zeta. rewrite Hnone.
  destruct (fas_region w !! _) as [value|]; [| destruct (searches f arg)];
    eexists _, _; (split; [done |]); unfold stored, log; cbn [trace fas_region];
    rewrite ?remote_calls_snoc_set, ?remote_calls_snoc_get; by split.
Qed.

(** A failure of the directory client passes through [_search_fas] and
    through the resolver unchanged. The request was sent, nothing is
    written to the cache, and nothing is stored for the call. *)
Theorem client_error_propagates (f : resolver) (arg : string) (d : fas_credentials)
    (e : string) (w : world) :
  let q := fas_query arg d (by_email_of f) in
  let key := call_key dict_str (resolver_name f) arg (Some (PyDict d)) in
  send_request (remote_calls (trace w)) q = Failure e →
  _search_fas send_request arg (PyDict d) (by_email_of f) w
    = (Raise (ClientError e), log (Request q) w)
  ∧ (searches f arg = true → fas_region w !! key = None →
     ∃ w', resolve dict_str send_request f arg (Some (PyDict d)) w
             = (Raise (ClientError e), w')
           ∧ fas_region w' = fas_region w
           ∧ trace w' = (trace w ++ [CacheGet key; Request q])%list).
Proof.
  intros q key Hsend. subst q key. split.
  - rewrite _search_fas_eq. cbv zeta. by rewrite Hsend.
  - intros Hs Hmiss. rewrite resolve_eq. cbv zeta.
    rewrite Hmiss, Hs. cbn [default from_option id]. rewrite Hsend.
    eexists. split; [done |]. split; [done |].
    unfold log. cbn. by rewrite <- app_assoc.
Qed.

(** When the directory answers a search with exactly one person, the
    resolver returns that person's user name, having sent one request, and
    stores it under the key of the call. The warmed entries, written just
    before, hold the response's top-level user name instead. *)
Theorem single_match_returns_person (f : resolver) (arg : string)
    (d : fas_credentials) (r : fas_response) (p : person) (w : world) :
  let q := fas_query arg d (by_email_of f) in
  let key := call_key dict_str (resolver_name f) arg (Some (PyDict d)) in
  send_request (remote_calls (trace w)) q = Response r →
  people r = [p] →
  searches f arg = true →
  fas_region w !! key = None →
  ∃ w', resolve dict_str send_request f arg (Some (PyDict d)) w
          = (Ok (person_username p), w')
        ∧ fas_region w'
          = <[key := person_username p]>
              (warm (warmed_keys (email r) (ircnick r)) (username r) (fas_region w))
        ∧ fas_region w' !! key = Some (person_username p)
        ∧ remote_calls (trace w') = S (remote_calls (trace w)).
Proof.
  intros q key Hsend Hp Hs Hmiss. subst q key. rewrite resolve_eq. cbv zeta.
  rewrite Hmiss, Hs. cbn [default from_option id]. rewrite Hsend, Hp.
  eexists. split; [done |]. unfold stored. cbn [fas_region trace after_search log].
  split; [done |]. split; [apply lookup_insert_eq |].
  rewrite !remote_calls_app. cbn [remote_calls].
  rewrite remote_calls_warm_events. cbn. lia.
Qed.

End ResolverCases.

(** ** What a run of calls can and cannot do *)

Lemma warm_events_are_writes r n e :
  e ∈ mjoin (replicate n (warm_events r)) → ∃ k, e = CacheSet k (username r).
Proof.
  induction n as [|n IH]; [by intros ?%elem_of_nil |].
  change (mjoin (replicate (S n) (warm_events r)))
    with (warm_events r ++ mjoin (replicate n (warm_events r)))%list.
  intros [He|He]%elem_of_app; [| by apply IH].
  unfold warm_events in He. apply list_elem_of_fmap in He as (k & -> & _).
  by exists k.
Qed.

Section Runs.
Variable dict_str : fas_credentials → string.
Variable send_request : nat → fas_request → reply.

(** One call only adds to the log. *)
Lemma resolve_trace_grows f arg rest w :
  ∃ evs, trace (resolve dict_str send_request f arg rest w).2 = (trace w ++ evs)%list.
Proof.
  rewrite resolve_eq. cbv zeta.
  repeat case_match; eexists; unfold stored, after_search, log;
    cbn [snd trace fas_region]; rewrite <- ?app_assoc; reflexivity.
Qed.

(** Every request a resolver call sends is the one built from that call:
    it searches for the call's first argument, with the user, password and
    base URL of the credentials passed in that call, and with [by_email] set
    for [email2fas] and not for [nick2fas]. There is none when the cache
    answers, when the email is of the fedoraproject domain, or when no
    credentials were passed. *)
Theorem requests_come_from_the_call (f : resolver) (arg : string)
    (rest : option py_credentials) (w : world) :
  let key := call_key dict_str (resolver_name f) arg rest in
  ∃ evs,
    trace (resolve dict_str send_request f arg rest w).2 = (trace w ++ evs)%list
    ∧ ∀ q, Request q ∈ evs →
        fas_region w !! key = None
        ∧ searches f arg = true
        ∧ ∃ d, rest = Some (PyDict d) ∧ q = fas_query arg d (by_email_of f).
Proof.
  intros key. subst key. rewrite resolve_eq. cbv zeta.
  destruct (fas_region w !! _) as [value|] eqn:Hk.
  { exists [CacheGet (call_key dict_str (resolver_name f) arg rest)].
    split; [done |]. by intros q ?%list_elem_of_singleton. }
  destruct (searches f arg) eqn:Hs.
  2:{ eexists [CacheGet _; CacheSet _ _]. split.
      - unfold stored, log. cbn. by rewrite <- app_assoc.
      - intros q Hq. repeat (apply elem_of_cons in Hq as [[=]|Hq]).
        by apply elem_of_nil in Hq. }
  destruct rest as [[|d]|]; cbn [default from_option id].
  1, 3: (eexists [CacheGet _]; split; [done |];
         by intros q ?%list_elem_of_singleton).
  assert (∀ q (l : list event),
    Request q ∈ CacheGet (call_key dict_str (resolver_name f) arg (Some (PyDict d)))
                 :: Request (fas_query arg d (by_email_of f)) :: l →
    (∀ e, e ∈ l → ∃ k v, e = CacheSet k v) →
    None = None (A := string) ∧ true = true
    ∧ ∃ d0, Some (PyDict d) = Some (PyDict d0)
            ∧ q = fas_query arg d0 (by_email_of f)) as Hreq.
  { intros q l Hq Hl. do 2 (split; [done |]). exists d. split; [done |].
    apply elem_of_cons in Hq as [[=]|Hq].
    apply elem_of_cons in Hq as [[= ->]|Hq]; [done |].
    by destruct (Hl _ Hq) as (k & v & [=]). }
  destruct (send_request _ _) as [r|e].
  2:{ eexists [CacheGet _; Request _]. split.
      - unfold log. cbn. by rewrite <- app_assoc.
      - intros q Hq. apply (Hreq q [] Hq). by intros e' ?%elem_of_nil. }
  destruct (people r) as [|p [|p' l]].
  - eexists [CacheGet _; Request _]. split.
    + unfold log. cbn. by rewrite <- app_assoc.
    + intros q Hq. apply (Hreq q [] Hq). by intros e' ?%elem_of_nil.
  - eexists (CacheGet _ :: Request _
               :: (mjoin (replicate (length (people r)) (warm_events r))
                     ++ [CacheSet _ _])%list). split.
    + unfold stored, after_search, log. cbn [snd trace fas_region length].
      by rewrite <- !app_assoc.
    + intros q Hq. apply (Hreq q _ Hq).
      intros e' [He|He]%elem_of_app.
      * apply warm_events_are_writes in He as [k ->]. by eexists _, _.
      * apply list_elem_of_singleton in He as ->. by eexists _, _.
  - eexists (CacheGet _ :: Request _
               :: mjoin (replicate (length (people r)) (warm_events r))). split.
    + unfold after_search, log. cbn [snd trace fas_region]. by rewrite <- !app_assoc.
    + intros q Hq. apply (Hreq q _ Hq).
      intros e' He. apply warm_events_are_writes in He as [k ->]. by eexists _, _.
Qed.

(** Errors are not remembered. While the directory keeps answering a
    search with no people, or keeps failing, every repetition of the call
    raises the same exception and sends one more request; the cache stays as
    it was. *)
Theorem failed_calls_are_not_cached (f : resolver) (arg : string)
    (d : fas_credentials) (x : exn) (n : nat) (w : world) :
  let q := fas_query arg d (by_email_of f) in
  let key := call_key dict_str (resolver_name f) arg (Some (PyDict d)) in
  (∀ k, search_error (send_request k q) = Some x) →
  searches f arg = true →
  fas_region w !! key = None →
  ∃ w', repeat_call n (resolve dict_str send_request f arg (Some (PyDict d))) w
          = (replicate n (Raise x), w')
        ∧ remote_calls (trace w') = remote_calls (trace w) + n
        ∧ fas_region w' = fas_region w.
Proof.
  intros q key Herr Hs. subst q key. revert w.
  induction n as [|n IH]; intros w Hmiss.
  { exists w. cbn. split; [done |]. split; [lia | done]. }
  cbn [repeat_call]. rewrite resolve_eq. cbv zeta.
  rewrite Hmiss, Hs. cbn [default from_option id].
  specialize (Herr (remote_calls (trace w))). unfold search_error in Herr.
  set (w0 := log (Request (fas_query arg d (by_email_of f)))
               (log (CacheGet (call_key dict_str (resolver_name f) arg
                                 (Some (PyDict d)))) w)).
  assert (fas_region w0 = fas_region w) as Hregion by done.
  assert (remote_calls (trace w0) = S (remote_calls (trace w))) as Hcalls.
  { subst w0. unfold log. cbn [trace]. rewrite remote_calls_app, remote_calls_snoc_get.
    cbn. lia. }
  destruct (IH w0) as (w' & Hrun & Hcalls' & Hregion'); [by rewrite Hregion |].
  destruct (send_request _ _) as [r|e].
  - destruct (people r) as [|p l]; [| done]. injection Herr as <-.
    fold w0. rewrite Hrun. exists w'. split; [done |].
    rewrite Hcalls', Hcalls, Hregion', Hregion. split; [lia | done].
  - injection Herr as <-. fold w0. rewrite Hrun. exists w'. split; [done |].
    rewrite Hcalls', Hcalls, Hregion', Hregion. split; [lia | done].
Qed.

(** Whatever calls of the two resolvers are made, with whatever
    arguments and outcomes, no entry ever leaves the cache, the log is only
    added to, and each call sends at most one request. *)
Theorem interface_only_adds (calls : list api_call) (w : world) :
  let w' := run_calls dict_str send_request calls w in
  (∀ k, is_Some (fas_region w !! k) → is_Some (fas_region w' !! k))
  ∧ (∃ evs, trace w' = (trace w ++ evs)%list)
  ∧ (remote_calls (trace w') ≤ remote_calls (trace w) + length calls)%nat.
Proof.
  cbv zeta. split; [intros k; apply run_calls_keeps |].
  revert w. induction calls as [|[[f arg] rest] calls IH]; intros w.
  { cbn. split; [exists []; by rewrite app_nil_r | lia]. }
  cbn [run_calls length].
  destruct (resolve dict_str send_request f arg rest w) as [res w1] eqn:Hcall.
  destruct (IH w1) as [[evs' Htrace'] Hbound].
  destruct (resolve_trace_grows f arg rest w) as (evs & Htrace).
  rewrite Hcall in Htrace. cbn [snd] in *. split.
  - exists (evs ++ evs')%list. by rewrite Htrace', Htrace, <- app_assoc.
  - pose proof (proj1 (resolve_footprint _ _ _ _ _ _ _ _ Hcall)). lia.
Qed.
End Runs.

(** ** Avatar addresses tell their arguments apart *)

Lemma string_app_inv_tail (s t p : string) : s +:+ p = t +:+ p → s = t.
Proof.
  revert t. induction s as [|a s IH]; intros [|b t] H; [done | | |].
  - apply (f_equal String.length) in H. rewrite !string_app_length in H.
    cbn in H. lia.
  - apply (f_equal String.length) in H. rewrite !string_app_length in H.
    cbn in H. lia.
  - rewrite !string_app_cons in H. injection H as -> H. f_equal. by apply IH.
Qed.

Lemma hex_digit_inj x y : (x < 16)%N → (y < 16)%N → hex_digit x = hex_digit y → x = y.
Proof.
  intros Hx Hy H.
  assert (x = 0 ∨ x = 1 ∨ x = 2 ∨ x = 3 ∨ x = 4 ∨ x = 5 ∨ x = 6 ∨ x = 7 ∨ x = 8
          ∨ x = 9 ∨ x = 10 ∨ x = 11 ∨ x = 12 ∨ x = 13 ∨ x = 14 ∨ x = 15)%N as Ex by lia.
  assert (y = 0 ∨ y = 1 ∨ y = 2 ∨ y = 3 ∨ y = 4 ∨ y = 5 ∨ y = 6 ∨ y = 7 ∨ y = 8
          ∨ y = 9 ∨ y = 10 ∨ y = 11 ∨ y = 12 ∨ y = 13 ∨ y = 14 ∨ y = 15)%N as Ey by lia.
  destruct_or!; subst; try reflexivity; cbv in H; discriminate H.
Qed.

Lemma quote_plus_cons_inj a b s t :
  quote_plus (String a s) = quote_plus (String b t) →
  a = b ∧ quote_plus s = quote_plus t.
Proof.
  cbn [quote_plus].
  destruct (always_safe a) eqn:Ha, (always_safe b) eqn:Hb.
  - by intros [= -> ->].
  - destruct (Ascii.eqb b " "); intros [= -> _]; discriminate.
  - destruct (Ascii.eqb a " "); intros [= <- _]; discriminate.
  - destruct (Ascii.eqb_spec a " ") as [->|Hna], (Ascii.eqb_spec b " ") as [->|Hnb];
      try (intros [=]; fail).
    + by intros [= ->].
    + intros [= Hhi Hlo ->]. split; [| done].
      pose proof (N_ascii_bounded a). pose proof (N_ascii_bounded b).
      apply hex_digit_inj in Hhi; [| by apply N.Div0.div_lt_upper_bound..].
      apply hex_digit_inj in Hlo; [| by apply N.mod_lt..].
      rewrite <- (ascii_N_embedding a), <- (ascii_N_embedding b). f_equal.
      rewrite (N.div_mod (N_of_ascii a) 16), (N.div_mod (N_of_ascii b) 16) by done.
      by rewrite Hhi, Hlo.
Qed.

Lemma quote_plus_cons_nonempty a s : quote_plus (String a s) ≠ "".
Proof. cbn [quote_plus]. by repeat case_match. Qed.

(** [quote_plus] loses nothing: two values with the same quoting are the
    same value. *)
Lemma quote_plus_inj s : ∀ t, quote_plus s = quote_plus t → s = t.
Proof.
  induction s as [|a s IH]; intros [|b t] H; [done | | |].
  - symmetry in H. by apply quote_plus_cons_nonempty in H.
  - by apply quote_plus_cons_nonempty in H.
  - apply quote_plus_cons_inj in H as [-> H]. f_equal. by apply IH.
Qed.

Lemma split_at_first (c : ascii) (s1 : string) : ∀ s2 r1 r2,
  contains c s1 = false → contains c s2 = false →
  s1 +:+ String c r1 = s2 +:+ String c r2 → s1 = s2 ∧ r1 = r2.
Proof.
  induction s1 as [|a s1 IH]; intros [|b s2] r1 r2 H1 H2 H.
  - by injection H.
  - rewrite string_app_cons in H. injection H as <- _.
    cbn [contains] in H2. by rewrite Ascii.eqb_refl in H2.
  - rewrite string_app_cons in H. injection H as -> _.
    cbn [contains] in H1. by rewrite Ascii.eqb_refl in H1.
  - rewrite !string_app_cons in H. injection H as -> H.
    cbn [contains] in H1, H2.
    apply orb_false_iff in H1 as [_ H1]. apply orb_false_iff in H2 as [_ H2].
    destruct (IH _ _ _ H1 H2 H) as [-> ->]. done.
Qed.

Lemma query_inj (size1 size2 : Z) (default1 default2 : string) :
  "s=" +:+ pretty size1 +:+ "&d=" +:+ quote_plus default1
  = "s=" +:+ pretty size2 +:+ "&d=" +:+ quote_plus default2 →
  size1 = size2 ∧ default1 = default2.
Proof.
  intros H. apply string_app_inv_head in H.
  change ("&d=" +:+ quote_plus default1) with (String "&" ("d=" +:+ quote_plus default1)) in H.
  change ("&d=" +:+ quote_plus default2) with (String "&" ("d=" +:+ quote_plus default2)) in H.
  assert (∀ z : Z, contains "&" (pretty z) = false) as Hamp.
  { intros z. apply (string_forallb_absent query_char); [| done].
    rewrite <- quote_plus_pretty_Z. apply quote_plus_chars. }
  apply split_at_first in H as [Hs Hd]; [| apply Hamp..].
  apply string_app_inv_head in Hd.
  split; [by apply (inj pretty) | by apply quote_plus_inj].
Qed.

(** The avatar address tells its arguments apart. For one identity, two
    addresses of the hash path are equal only if the sizes are equal and the
    defaults are equal; and two user names outside the override table have
    the same address only if the digests of their OpenID strings are equal,
    where the OpenID strings of different user names are different. *)
Theorem avatar_url_tells_arguments_apart (sha256_hexdigest md5_hexdigest : string → string)
    (libravatar_url : libravatar_query → Z → string → string)
    (identity : string) (size1 size2 : Z) (default1 default2 : string)
    (u1 u2 : string) :
  (avatar_url_from_openid sha256_hexdigest libravatar_url identity size1 default1 false
   = avatar_url_from_openid sha256_hexdigest libravatar_url identity size2 default2 false →
   size1 = size2 ∧ default1 = default2)
  ∧ (avatar_url_from_email md5_hexdigest libravatar_url identity size1 default1 false
     = avatar_url_from_email md5_hexdigest libravatar_url identity size2 default2 false →
     size1 = size2 ∧ default1 = default2)
  ∧ (u1 ∉ ["bodhi"; "koschei"; "taskotron"] → u2 ∉ ["bodhi"; "koschei"; "taskotron"] →
     avatar_url sha256_hexdigest libravatar_url u1 size1 default1
     = avatar_url sha256_hexdigest libravatar_url u2 size1 default1 →
     sha256_hexdigest ("http://" +:+ u1 +:+ ".id.fedoraproject.org/")
     = sha256_hexdigest ("http://" +:+ u2 +:+ ".id.fedoraproject.org/"))
  ∧ ("http://" +:+ u1 +:+ ".id.fedoraproject.org/"
     = "http://" +:+ u2 +:+ ".id.fedoraproject.org/" → u1 = u2).
Proof.
  split; [| split; [| split]].
  - unfold avatar_url_from_openid. cbv zeta. rewrite !ordered_query. intros H.
    do 3 apply string_app_inv_head in H. by apply query_inj.
  - unfold avatar_url_from_email. cbv zeta. rewrite !ordered_query. intros H.
    do 3 apply string_app_inv_head in H. by apply query_inj.
  - intros H1 H2. unfold avatar_url.
    rewrite !hardcoded_avatars_None by done.
    unfold avatar_url_from_openid. cbv zeta. rewrite !ordered_query. intros H.
    apply string_app_inv_head in H.
    by apply string_app_inv_tail in H.
  - intros H. apply string_app_inv_head in H. by apply string_app_inv_tail in H.
Qed.

Lemma avatar_url_tells_arguments_apart_witness :
  avatar_url_from_openid (λ _, "5e") (λ _ _ _, "") "http://bob.id.fedoraproject.org/"
    64 "retro" false
  = avatar_url_from_openid (λ _, "5e") (λ _ _ _, "") "http://bob.id.fedoraproject.org/"
      64 "retro" false
  ∧ (64 = 64)%Z ∧ "retro" = "retro".
Proof.
  split; [reflexivity |].
  exact (proj1 (avatar_url_tells_arguments_apart (λ _, "5e") (λ _, "") (λ _ _ _, "")
    "http://bob.id.fedoraproject.org/" 64 64 "retro" "retro" "bob" "bob") eq_refl).
Defined.

(** ** The further properties at sample inputs *)

Lemma resolve_without_credentials_witness :
  default PyNone None = PyNone
  ∧ ∃ w', nick2fas sample_dict_str (always one_bob) "bobby" None empty_world
            = (Raise AttributeError, w')
          ∧ remote_calls (trace w') = remote_calls (trace empty_world)
          ∧ fas_region w' = fas_region empty_world.
Proof.
  split; [reflexivity |].
  destruct (resolve_without_credentials sample_dict_str (always one_bob) Nick2fas
    "bobby" None empty_world eq_refl) as (res & w' & Hcall & Hcalls & Hmiss).
  destruct (Hmiss eq_refl eq_refl) as [-> Hregion].
  by exists w'.
Defined.

Lemma client_error_propagates_witness :
  let q := fas_query "bobby" sample_creds false in
  down (remote_calls (trace empty_world)) q = Failure "503"
  ∧ _search_fas down "bobby" (PyDict sample_creds) false empty_world
    = (Raise (ClientError "503"), log (Request q) empty_world).
Proof.
  cbv zeta. split; [reflexivity |].
  exact (proj1 (client_error_propagates sample_dict_str down Nick2fas "bobby"
    sample_creds "503" empty_world eq_refl)).
Defined.

Lemma single_match_returns_person_witness :
  let creds := Some (PyDict sample_creds) in
  let q := fas_query "bobby" sample_creds false in
  let key := call_key sample_dict_str "nick2fas" "bobby" creds in
  always alias_of_bob (remote_calls (trace empty_world)) q = Response alias_of_bob
  ∧ people alias_of_bob = [bob]
  ∧ searches Nick2fas "bobby" = true
  ∧ fas_region empty_world !! key = None
  ∧ ∃ w', nick2fas sample_dict_str (always alias_of_bob) "bobby" creds empty_world
            = (Ok "bob", w')
          ∧ fas_region w' !! key = Some "bob"
          ∧ remote_calls (trace w') = 1.
Proof.
  cbv zeta. do 4 (split; [reflexivity |]).
  destruct (single_match_returns_person sample_dict_str (always alias_of_bob) Nick2fas
    "bobby" sample_creds alias_of_bob bob empty_world eq_refl eq_refl eq_refl eq_refl)
    as (w' & Hcall & _ & Hkey & Hcalls).
  by exists w'.
Defined.

Lemma requests_come_from_the_call_witness :
  let w' := (nick2fas sample_dict_str (always one_bob) "bobby"
               (Some (PyDict sample_creds)) empty_world).2 in
  Request (fas_query "bobby" sample_creds false) ∈ trace w'
  ∧ ∃ d, Some (PyDict sample_creds) = Some (PyDict d)
         ∧ fas_query "bobby" sample_creds false = fas_query "bobby" d false.
Proof.
  cbv zeta.
  assert (Request (fas_query "bobby" sample_creds false)
          ∈ trace (nick2fas sample_dict_str (always one_bob) "bobby"
                     (Some (PyDict sample_creds)) empty_world).2) as Hin.
  { vm_compute. right. left. }
  split; [exact Hin |].
  destruct (requests_come_from_the_call sample_dict_str (always one_bob) Nick2fas
    "bobby" (Some (PyDict sample_creds)) empty_world) as (evs & Htrace & Hreq).
  cbn [resolve] in Htrace. rewrite Htrace in Hin. cbn [trace empty_world app] in Hin.
  exact (proj2 (proj2 (Hreq _ Hin))).
Defined.

Lemma failed_calls_are_not_cached_witness :
  let creds := Some (PyDict sample_creds) in
  let q := fas_query "ghost" sample_creds false in
  (∀ k, search_error (always nobody k q) = Some (ValueError no_fas_account))
  ∧ searches Nick2fas "ghost" = true
  ∧ fas_region empty_world !! call_key sample_dict_str "nick2fas" "ghost" creds = None
  ∧ ∃ w', repeat_call 3 (nick2fas sample_dict_str (always nobody) "ghost" creds)
            empty_world
          = (replicate 3 (Raise (ValueError no_fas_account)), w')
          ∧ remote_calls (trace w') = 3.
Proof.
  cbv zeta. split; [intros k; reflexivity |]. do 2 (split; [reflexivity |]).
  destruct (failed_calls_are_not_cached sample_dict_str (always nobody) Nick2fas "ghost"
    sample_creds (ValueError no_fas_account) 3 empty_world
    (λ _, eq_refl) eq_refl eq_refl) as (w' & Hrun & Hcalls & _).
  by exists w'.
Defined.

Lemma interface_only_adds_witness :
  let creds := Some (PyDict sample_creds) in
  let key := function_key_generator "email2fas" ["bob@example.com"] in
  let w := (nick2fas sample_dict_str (always one_bob) "bobby" creds empty_world).2 in
  let calls := [(Email2fas, "ghost@example.com", creds); (Nick2fas, "ghost", None)] in
  is_Some (fas_region w !! key)
  ∧ is_Some (fas_region (run_calls sample_dict_str (always one_bob) calls w) !! key).
Proof.
  cbv zeta.
  assert (is_Some (fas_region (nick2fas sample_dict_str (always one_bob) "bobby"
            (Some (PyDict sample_creds)) empty_world).2
          !! function_key_generator "email2fas" ["bob@example.com"])) as Hkey.
  { exists "bob". vm_compute. reflexivity. }
  split; [exact Hkey |].
  exact (proj1 (interface_only_adds sample_dict_str (always one_bob) _ _) _ Hkey).
Defined.
